(** * eventlet.event: the single-fire, multi-waiter [Event]

    A shallow embedding of [eventlet/event.py].  The methods of the class are
    functions over an explicit [Event] record; the two collaborators the
    module imports (the hub and the greenlet API) are ports whose calls are
    recorded in a log, and the one suspension point of the module
    ([hubs.get_hub().switch()] inside [wait]) is a constructor of the result
    type that carries the rest of the method as a continuation. *)

From Stdlib Require Import ZArith String List.
From stdpp Require Import base decidable option list gmap sets.

Local Open Scope Z_scope.
Set Warnings "-register-all".

(** ** Data model *)

(** Objects that callers pass to the methods of an [Event]. *)
Inductive pyobj : Type :=
| PyNone
| PyInt (z : Z)
| PyStr (s : string)
| PyExc (cls msg : string)
| PyTuple (items : list pyobj).

(** The contents of the attribute [_result].  [NOT_USED] is the singleton
    instance created at module level ([NOT_USED = NOT_USED()]).  The module
    exports only the class ([__all__ = ['Event']]) and callers are taken
    never to hand the singleton itself to a method, so every object that
    reaches an [Event] through an argument is some [Obj v], and the tests
    [is NOT_USED] / [is not NOT_USED] of the source are matches on this
    type. *)
Inductive slot : Type :=
| NOT_USED
| Obj (v : pyobj).

(** Greenlets are compared by identity only. *)
Definition greenlet : Type := positive.
Bind Scope positive_scope with greenlet.

(** The attributes of an instance.  [_exc] is only ever assigned [None] or a
    tuple ([reset] writes [None], [send] wraps whatever is not a tuple), so
    it is an optional list of the tuple's items. *)
Record Event : Type := mkEvent {
  _result : slot;
  _exc : option (list pyobj);
  _waiters : gset greenlet
}.

(** Exceptions that leave a method: a failed [assert], or what
    [greenlet.throw] raises in its target when called with the items [args]
    of the stored tuple. *)
Inductive pyexn : Type :=
| AssertionError (msg : string)
| Thrown (args : list pyobj).

Inductive outcome (A : Type) : Type :=
| Return (a : A)
| Raise (e : pyexn).
Arguments Return {A} a.
Arguments Raise {A} e.

(** The bound method [self._do_send] with the arguments [send] freezes for
    it: the delivered object, the normalised error and the copy of the
    waiter set. *)
Inductive callback : Type :=
| do_send_cb (result : pyobj) (exc : option (list pyobj)) (waiters : gset greenlet).

(** Calls made on the hub and on other greenlets. *)
Inductive port_call : Type :=
| schedule_call_global (seconds : Z) (cb : callback)
| switch (waiter : greenlet) (v : pyobj)
| throw (waiter : greenlet) (args : list pyobj).

(** How [hubs.get_hub().switch()] comes back to a suspended caller: somebody
    switched to it with a value, or an exception was raised into it. *)
Inductive signal : Type :=
| Resumed (v : pyobj)
| Interrupted (e : pyexn).

(** The run of one method call.  [Finished r self log]: the call returned or
    raised [r] on the caller's own turn, leaving the instance as [self],
    after the port calls [log].  [Blocked self k]: the call reached
    [hubs.get_hub().switch()] with the instance as [self]; [k s self'] is the
    rest of the call once the hub comes back with [s] and the instance has
    meanwhile become [self']. *)
Inductive run (A : Type) : Type :=
| Finished (r : outcome A) (self : Event) (log : list port_call)
| Blocked (self : Event) (k : signal → Event → outcome A * Event).
Arguments Finished {A} r self log.
Arguments Blocked {A} self k.

(** ** Attribute updates *)

Definition set_outcome (r : slot) (e : option (list pyobj)) (self : Event) : Event :=
  {| _result := r; _exc := e; _waiters := _waiters self |}.

Definition add_waiter (g : greenlet) (self : Event) : Event :=
  {| _result := _result self; _exc := _exc self; _waiters := {[g]} ∪ _waiters self |}.

Definition discard_waiter (g : greenlet) (self : Event) : Event :=
  {| _result := _result self; _exc := _exc self; _waiters := _waiters self ∖ {[g]} |}.

(** ** The methods of [Event] *)

Definition reset (self : Event) : run unit :=
  match _result self with
  | NOT_USED =>
      Finished (Raise (AssertionError "Trying to re-reset() a fresh event.")) self []
  | Obj _ => Finished (Return tt) (set_outcome NOT_USED None self) []
  end.

(** The instance as [__init__] finds it: [_result] is the class attribute
    [None], [_waiters] has just been bound to [set()], and [_exc] is not
    bound yet (the field is a placeholder that [reset] overwrites). *)
Definition class_attrs : Event :=
  {| _result := Obj PyNone; _exc := None; _waiters := ∅ |}.

Definition __init__ : run unit := reset class_attrs.

Definition ready (self : Event) : bool :=
  match _result self with NOT_USED => false | Obj _ => true end.

Definition has_exception (self : Event) : bool :=
  match _exc self with None => false | Some _ => true end.

Definition has_result (self : Event) : bool :=
  match _result self, _exc self with
  | Obj _, None => true
  | _, _ => false
  end.

Definition resumed (s : signal) : outcome pyobj :=
  match s with
  | Resumed v => Return v
  | Interrupted e => Raise e
  end.

Definition wait (current : greenlet) (self : Event) : run pyobj :=
  match _result self with
  | NOT_USED =>
      Blocked (add_waiter current self)
              (λ s self', (resumed s, discard_waiter current self'))
  | Obj v =>
      match _exc self with
      | Some args => Finished (Raise (Thrown args)) self []
      | None => Finished (Return v) self []
      end
  end.

Definition poll (notready : pyobj) (current : greenlet) (self : Event) : run pyobj :=
  if ready self then wait current self else Finished (Return notready) self [].

Definition poll_exception (notready : pyobj) (current : greenlet) (self : Event) : run pyobj :=
  if has_exception self then wait current self else Finished (Return notready) self [].

Definition poll_result (notready : pyobj) (current : greenlet) (self : Event) : run pyobj :=
  if has_result self then wait current self else Finished (Return notready) self [].

(** [if exc is not None and not isinstance(exc, tuple): exc = (exc, )] *)
Definition as_exc_tuple (exc : pyobj) : option (list pyobj) :=
  match exc with
  | PyNone => None
  | PyTuple items => Some items
  | e => Some [e]
  end.

(** [hubs.get_hub()] only looks the hub up; the one call [send] makes on it
    is [schedule_call_global], with the attributes just written and a copy of
    the waiter set as arguments. *)
Definition send (result exc : pyobj) (self : Event) : run unit :=
  match _result self with
  | Obj _ =>
      Finished (Raise (AssertionError "Trying to re-send() an already-triggered event."))
               self []
  | NOT_USED =>
      let exc := as_exc_tuple exc in
      let self := set_outcome (Obj result) exc self in
      Finished (Return tt) self
        (if decide (_waiters self = ∅) then []
         else [schedule_call_global 0 (do_send_cb result exc (_waiters self))])
  end.

Definition send_exception (args : list pyobj) (self : Event) : run unit :=
  send PyNone (PyTuple args) self.

(** ** The deferred sweep *)

(** The greenlet a port call transfers control to, if any. *)
Definition target (c : port_call) : option greenlet :=
  match c with
  | switch waiter _ | throw waiter _ => Some waiter
  | schedule_call_global _ _ => None
  end.

Definition woken (log : list port_call) : list greenlet := omap target log.

Definition scheduled (log : list port_call) : list callback :=
  omap (λ c, match c with schedule_call_global _ cb => Some cb | _ => None end) log.

(** The port calls of a run that finished. *)
Definition calls {A} (r : run A) : list port_call :=
  match r with
  | Finished _ _ log => log
  | Blocked _ _ => []
  end.

(** A run preceded by the calls [log]. *)
Definition prepend {A} (log : list port_call) (r : run A) : run A :=
  match r with
  | Finished o self log' => Finished o self (log ++ log')
  | Blocked self k => Blocked self k
  end.

Section Sweep.

(** [waiter.switch(result)] and [waiter.throw(...)] hand control to another
    greenlet.  [after_wake c self] is how the call [c] comes back to the hub
    and the instance as the hub then finds it: [Return tt] when the woken
    greenlet (and whatever it started) yielded again, [Raise e] when the call
    raised [e] in the hub, as it does when the woken greenlet dies of an
    exception it did not catch or when [throw] refuses its arguments.
    Nothing is assumed of it. *)
Variable after_wake : port_call → Event → outcome unit * Event.

Definition wake (result : pyobj) (exc : option (list pyobj)) (waiter : greenlet) : port_call :=
  match exc with
  | None => switch waiter result
  | Some args => throw waiter args
  end.

(** [waiters] lists the copied set in the order in which [waiters.pop()]
    hands its members out.  There is no [try] around the two calls: an
    exception raised by one of them ends the loop and leaves [_do_send],
    with the rest of the copy not looked at. *)
Fixpoint _do_send (result : pyobj) (exc : option (list pyobj))
         (waiters : list greenlet) (self : Event) : run unit :=
  match waiters with
  | [] => Finished (Return tt) self []
  | waiter :: waiters =>
      if decide (waiter ∈ _waiters self) then
        let c := wake result exc waiter in
        match after_wake c self with
        | (Return _, self') => prepend [c] (_do_send result exc waiters self')
        | (Raise e, self') => Finished (Raise e) self' [c]
        end
      else _do_send result exc waiters self
  end.

(** The order in which repeated [pop()] empties a set is the set's own
    business: [pop_order] is any function that lists each set without
    repetition. *)
Definition pops_each_once (pop_order : gset greenlet → list greenlet) : Prop :=
  ∀ waiters, pop_order waiters ≡ₚ elements waiters.

(** The hub running a scheduled callback: [_do_send] over the set frozen in
    the callback, popped in the order [pop_order] gives for it. *)
Definition call (pop_order : gset greenlet → list greenlet)
    (cb : callback) (self : Event) : run unit :=
  match cb with
  | do_send_cb result exc waiters =>
      _do_send result exc (pop_order waiters) self
  end.

End Sweep.

(** ** Reachable instances *)

Definition after {A} (r : run A) : Event :=
  match r with
  | Finished _ self _ => self
  | Blocked self _ => self
  end.

(** One public operation on the instance: a call of a method up to its
    return or its suspension, or the return of the hub into a suspended
    [wait]. *)
Inductive op_step : Event → Event → Prop :=
| step_send result exc self :
    op_step self (after (send result exc self))
| step_send_exception args self :
    op_step self (after (send_exception args self))
| step_reset self :
    op_step self (after (reset self))
| step_wait current self :
    op_step self (after (wait current self))
| step_wait_resume current self0 self1 k s self :
    wait current self0 = Blocked self1 k →
    op_step self (snd (k s self)).

Definition constructed : Event := after __init__.

Definition reachable (self : Event) : Prop := rtc op_step constructed self.

(** What the three predicates say of an instance. *)
Record classified (self : Event) : Prop := {
  cl_exclusive : ¬ (has_result self = true ∧ has_exception self = true);
  cl_exhaustive : ready self = true ↔ has_result self = true ∨ has_exception self = true;
  cl_unset : ready self = false → has_result self = false ∧ has_exception self = false
}.

(** The call raised into its caller. *)
Definition raises {A} (r : run A) : Prop :=
  ∃ e self log, r = Finished (Raise e) self log.

(** The call raised an [AssertionError] into its caller on the caller's own
    turn, before touching the instance [self] or any port. *)
Definition raises_misuse {A} (r : run A) (self : Event) : Prop :=
  ∃ msg, r = Finished (Raise (AssertionError msg)) self [].

(** Two instances with the same delivered outcome (they may differ in who
    is waiting). *)
Definition same_outcome (self self' : Event) : Prop :=
  _result self' = _result self ∧ _exc self' = _exc self.

(** A few instances and objects used to run the statements below. *)
Definition one_waiter : Event := add_waiter 7%positive constructed.
Definition boom : pyobj := PyExc "ValueError" "boom".

(** An unset instance carries no error. *)
Definition unset_clean (self : Event) : Prop :=
  _result self = NOT_USED → _exc self = None.

(** A woken greenlet that does nothing to the instance but run the
    [finally] clause of its [wait], and then yields to the hub again. *)
Definition leaves (c : port_call) (self : Event) : outcome unit * Event :=
  (Return tt,
   match target c with
   | Some waiter => discard_waiter waiter self
   | None => self
   end).

(** A woken greenlet that lets an error thrown into it escape: the [finally]
    clause of its [wait] runs, the greenlet dies, and the error comes out of
    the [throw] call in the hub.  Switched to with a value, it just leaves. *)
Definition dies_of_error (c : port_call) (self : Event) : outcome unit * Event :=
  match c with
  | throw waiter args => (Raise (Thrown args), discard_waiter waiter self)
  | _ => leaves c self
  end.

(** An environment in which a woken greenlet does to the instance what
    [leaves] does, whether its call then comes back to the hub normally or
    raises there. *)
Definition only_leaves (after_wake : port_call → Event → outcome unit * Event) : Prop :=
  ∀ c self, snd (after_wake c self) = snd (leaves c self).

(** The run came to its end without raising. *)
Definition completed (r : run unit) : Prop :=
  ∃ self log, r = Finished (Return tt) self log.

(** An instance in the middle of a delivery: the value 42 has been sent
    while greenlets 1, 2 and 3 were waiting, and greenlet 2 has since left
    its [wait] (its [finally] clause took it out of the waiter set). *)
Definition two_left : Event :=
  {| _result := Obj (PyInt 42); _exc := None;
     _waiters := {[1%positive; 3%positive]} |}.

(** Greenlets 1, 2 and 3 have each called [wait()] on a fresh instance and
    are suspended in it. *)
Definition three_waiting : Event :=
  after (wait 3 (after (wait 2 (after (wait 1 constructed))))).

(** ** Basic facts *)

Lemma constructed_eq : constructed = {| _result := NOT_USED; _exc := None; _waiters := ∅ |}.
Proof. reflexivity. Qed.

Lemma ready_spec self : ready self = true ↔ _result self ≠ NOT_USED.
Proof. unfold ready. destruct (_result self); split; (congruence || done). Qed.

Lemma ready_false self : ready self = false ↔ _result self = NOT_USED.
Proof. unfold ready. destruct (_result self); split; (congruence || done). Qed.

Lemma send_armed result exc self :
  _result self = NOT_USED →
  send result exc self =
    Finished (Return tt) (set_outcome (Obj result) (as_exc_tuple exc) self)
      (if decide (_waiters self = ∅) then []
       else [schedule_call_global 0
               (do_send_cb result (as_exc_tuple exc) (_waiters self))]).
Proof. intros H. unfold send. by rewrite H. Qed.

Lemma send_fired result exc self :
  _result self ≠ NOT_USED →
  send result exc self =
    Finished (Raise (AssertionError "Trying to re-send() an already-triggered event."))
             self [].
Proof. intros H. unfold send. by destruct (_result self). Qed.

Lemma wait_fired_value current self v :
  _result self = Obj v → _exc self = None →
  wait current self = Finished (Return v) self [].
Proof. intros Hr He. unfold wait. by rewrite Hr, He. Qed.

Lemma wait_fired_error current self v args :
  _result self = Obj v → _exc self = Some args →
  wait current self = Finished (Raise (Thrown args)) self [].
Proof. intros Hr He. unfold wait. by rewrite Hr, He. Qed.

Lemma as_exc_tuple_not_none exc : exc ≠ PyNone → is_Some (as_exc_tuple exc).
Proof. destruct exc; (done || by eexists). Qed.

Lemma same_outcome_refl self : same_outcome self self.
Proof. by split. Qed.

Lemma set_outcome_result r e self : _result (set_outcome r e self) = r.
Proof. reflexivity. Qed.

Lemma set_outcome_exc r e self : _exc (set_outcome r e self) = e.
Proof. reflexivity. Qed.

Lemma set_outcome_waiters r e self : _waiters (set_outcome r e self) = _waiters self.
Proof. reflexivity. Qed.

(** ** Delivery *)

(** C1. For every value [v], [send(v)] on an instance whose outcome is unset
    returns normally and makes [ready()] and [has_result()] true; from then
    on, on any instance that still holds that outcome (whoever has joined or
    left the waiters meanwhile), [wait()] finishes on the caller's own turn
    with exactly [v]: it is [Finished], not [Blocked], its log of port calls
    is empty, and the instance is left as it was. *)
Theorem send_then_wait_returns_value (v : pyobj) (self : Event) :
  _result self = NOT_USED →
  ∃ self' log,
    send v PyNone self = Finished (Return tt) self' log ∧
    ready self' = true ∧
    has_result self' = true ∧
    ∀ (current : greenlet) (later : Event),
      same_outcome self' later →
      wait current later = Finished (Return v) later [].
Proof.
  intros Harmed. eexists _, _. split; [by apply send_armed|].
  repeat split.
  intros current later [Hr He].
  apply wait_fired_value; [by rewrite Hr | by rewrite He].
Qed.

Lemma send_then_wait_returns_value_witness :
  _result constructed = NOT_USED ∧
  ∃ self' log,
    send (PyInt 42) PyNone constructed = Finished (Return tt) self' log ∧
    ready self' = true ∧
    has_result self' = true ∧
    ∀ (current : greenlet) (later : Event),
      same_outcome self' later →
      wait current later = Finished (Return (PyInt 42)) later [].
Proof.
  split; [reflexivity|].
  apply (send_then_wait_returns_value (PyInt 42) constructed). reflexivity.
Defined.

(** C2. For every error [e], [send_exception(e)] on an instance whose
    outcome is unset returns normally and makes [has_exception()] true; from
    then on, on any instance that still holds that outcome, [wait()] raises
    exactly [e] into its caller (what [throw] raises from the one-item tuple
    [(e,)]) and returns no value. *)
Theorem send_exception_then_wait_raises (e : pyobj) (self : Event) :
  _result self = NOT_USED →
  ∃ self' log,
    send_exception [e] self = Finished (Return tt) self' log ∧
    has_exception self' = true ∧
    ∀ (current : greenlet) (later : Event),
      same_outcome self' later →
      wait current later = Finished (Raise (Thrown [e])) later [].
Proof.
  intros Harmed. unfold send_exception. eexists _, _.
  split; [by apply send_armed|]. split; [done|].
  intros current later [Hr He].
  eapply wait_fired_error; [by rewrite Hr | by rewrite He].
Qed.

Lemma send_exception_then_wait_raises_witness :
  _result one_waiter = NOT_USED ∧
  ∃ self' log,
    send_exception [boom] one_waiter = Finished (Return tt) self' log ∧
    has_exception self' = true ∧
    ∀ (current : greenlet) (later : Event),
      same_outcome self' later →
      wait current later = Finished (Raise (Thrown [boom])) later [].
Proof.
  split; [reflexivity|].
  apply (send_exception_then_wait_raises boom one_waiter). reflexivity.
Defined.



(** ** Misuse *)

Lemma reset_fresh self :
  _result self = NOT_USED →
  reset self =
    Finished (Raise (AssertionError "Trying to re-reset() a fresh event.")) self [].
Proof. intros H. unfold reset. by rewrite H. Qed.

Lemma reset_fired self :
  _result self ≠ NOT_USED →
  reset self = Finished (Return tt) (set_outcome NOT_USED None self) [].
Proof. intros H. unfold reset. by destruct (_result self). Qed.

(** C4. Whatever the arguments, [send] raises if and only if the outcome is
    not unset when it is called ([ready()] holds), and [reset] raises if and
    only if the outcome is unset.  In both cases the error is the failed
    assertion, raised into the caller on the caller's own turn with the
    instance untouched and no port called. *)
Theorem misuse_iff_wrong_state (self : Event) :
  (∀ result exc : pyobj,
     (raises (send result exc self) ↔ ready self = true) ∧
     (ready self = true → raises_misuse (send result exc self) self)) ∧
  (raises (reset self) ↔ ready self = false) ∧
  (ready self = false → raises_misuse (reset self) self).
Proof.
  split; [intros result exc; split; [split|] | split; [split|]].
  - intros (e & self' & log & Hraise). apply ready_spec. intros Harmed.
    rewrite send_armed in Hraise by done. discriminate.
  - intros Hfired%ready_spec. rewrite send_fired by done. by eexists _, _, _.
  - intros Hfired%ready_spec. rewrite send_fired by done. by eexists.
  - intros (e & self' & log & Hraise). apply ready_false.
    destruct (_result self) as [|v] eqn:Hr; [done|].
    rewrite reset_fired in Hraise by (by rewrite Hr). discriminate.
  - intros Harmed%ready_false. rewrite reset_fresh by done. by eexists _, _, _.
  - intros Harmed%ready_false. rewrite reset_fresh by done. by eexists.
Qed.

(** C5. Once a [send] has gone through, a further [send] on an instance
    that still holds that outcome (no [reset] in between) fails with the
    assertion error and changes nothing: the instance it leaves is the one it
    found, so the outcome is still the first delivery (value and normalised
    error) and the waiter set is the same. *)
Theorem second_send_fails_unchanged
    (v1 e1 v2 e2 : pyobj) (self self1 later : Event) (log1 : list port_call) :
  send v1 e1 self = Finished (Return tt) self1 log1 →
  same_outcome self1 later →
  raises_misuse (send v2 e2 later) later ∧
  after (send v2 e2 later) = later ∧
  _result (after (send v2 e2 later)) = Obj v1 ∧
  _exc (after (send v2 e2 later)) = as_exc_tuple e1 ∧
  _waiters (after (send v2 e2 later)) = _waiters later.
Proof.
  intros Hfirst [Hr He].
  assert (_result self = NOT_USED) as Harmed.
  { unfold send in Hfirst. by destruct (_result self). }
  rewrite send_armed in Hfirst by done. injection Hfirst as <- _.
  simpl in Hr, He.
  rewrite send_fired by (by rewrite Hr). simpl.
  repeat split; try done. by eexists.
Qed.

Lemma second_send_fails_unchanged_witness :
  let first := set_outcome (Obj (PyInt 1)) None constructed in
  send (PyInt 1) PyNone constructed = Finished (Return tt) first [] ∧
  same_outcome first first ∧
  raises_misuse (send (PyInt 2) PyNone first) first ∧
  after (send (PyInt 2) PyNone first) = first ∧
  _result (after (send (PyInt 2) PyNone first)) = Obj (PyInt 1) ∧
  _exc (after (send (PyInt 2) PyNone first)) = as_exc_tuple PyNone ∧
  _waiters (after (send (PyInt 2) PyNone first)) = _waiters first.
Proof.
  intros first.
  split; [reflexivity|]. split; [split; reflexivity|].
  apply (second_send_fails_unchanged (PyInt 1) PyNone (PyInt 2) PyNone
           constructed first first []); [reflexivity | split; reflexivity].
Defined.

(** C10. [send(v, e)] with [e] not [None] on an armed instance delivers the
    error: [has_exception()] becomes true and [has_result()] false, and from
    then on, on any instance that still holds that outcome, [wait()] raises
    the error into its caller: from the items of [e] when [e] is a tuple, and
    from [e] itself, as the one-item tuple [(e,)], when it is not.  It does
    not return, so [v] is never what it returns. *)
Theorem send_value_and_error_is_error (v e : pyobj) (self : Event) :
  e ≠ PyNone →
  _result self = NOT_USED →
  ∃ self' log,
    send v e self = Finished (Return tt) self' log ∧
    has_exception self' = true ∧
    has_result self' = false ∧
    ∀ (current : greenlet) (later : Event),
      same_outcome self' later →
      (∀ items, e = PyTuple items →
         wait current later = Finished (Raise (Thrown items)) later []) ∧
      ((∀ items, e ≠ PyTuple items) →
         wait current later = Finished (Raise (Thrown [e])) later []) ∧
      (∃ args, wait current later = Finished (Raise (Thrown args)) later []) ∧
      wait current later ≠ Finished (Return v) later [].
Proof.
  intros He Harmed.
  destruct (as_exc_tuple_not_none e He) as [args Hargs].
  eexists _, _. split; [by apply send_armed|].
  unfold has_exception, has_result. simpl. rewrite Hargs.
  split; [done|]. split; [done|].
  intros current later [Hr Hx]. simpl in Hr, Hx.
  rewrite (wait_fired_error current later v args) by done.
  split; [|split; [|split]].
  - intros items ->. simpl in Hargs. by injection Hargs as ->.
  - intros Hbare.
    destruct e as [|z|str|cls msg|items]; simpl in Hargs;
      try discriminate; try by injection Hargs as <-.
    by destruct (Hbare items).
  - by eexists.
  - discriminate.
Qed.

Lemma send_value_and_error_is_error_witness :
  boom ≠ PyNone ∧
  _result constructed = NOT_USED ∧
  ∃ self' log,
    send (PyInt 5) boom constructed = Finished (Return tt) self' log ∧
    has_exception self' = true ∧
    has_result self' = false ∧
    ∀ (current : greenlet) (later : Event),
      same_outcome self' later →
      (∀ items, boom = PyTuple items →
         wait current later = Finished (Raise (Thrown items)) later []) ∧
      ((∀ items, boom ≠ PyTuple items) →
         wait current later = Finished (Raise (Thrown [boom])) later []) ∧
      (∃ args, wait current later = Finished (Raise (Thrown args)) later []) ∧
      wait current later ≠ Finished (Return (PyInt 5)) later [].
Proof.
  split; [discriminate|]. split; [reflexivity|].
  apply (send_value_and_error_is_error (PyInt 5) boom constructed);
    [discriminate | reflexivity].
Defined.

(** ** Waiting *)

(** C7. [wait()] on an instance whose outcome is unset suspends with the
    calling greenlet already in the waiter set, and however the hub comes
    back (a value switched in, an error thrown in, any other exception
    raised out of the switch) and whatever the instance has become by then,
    the caller is taken out of the waiter set, nothing else of the instance
    is changed, and only then does [wait()] return that value or raise that
    exception. *)
Theorem wait_registers_then_always_leaves (current : greenlet) (self : Event) :
  _result self = NOT_USED →
  ∃ k,
    wait current self = Blocked (add_waiter current self) k ∧
    current ∈ _waiters (add_waiter current self) ∧
    ∀ self' : Event,
      (∀ v, fst (k (Resumed v) self') = Return v) ∧
      (∀ e, fst (k (Interrupted e) self') = Raise e) ∧
      ∀ s,
        snd (k s self') = discard_waiter current self' ∧
        (current ∉ _waiters (snd (k s self'))) ∧
        _waiters (snd (k s self')) = _waiters self' ∖ {[current]} ∧
        same_outcome self' (snd (k s self')).
Proof.
  intros Harmed. unfold wait. rewrite Harmed. eexists. split; [done|].
  split; [simpl; apply elem_of_union_l; by apply elem_of_singleton|].
  intros self'. split; [done|]. split; [done|].
  intros s. simpl. repeat split.
  rewrite elem_of_difference, elem_of_singleton. tauto.
Qed.

Lemma wait_registers_then_always_leaves_witness :
  _result constructed = NOT_USED ∧
  ∃ k,
    wait 3%positive constructed = Blocked (add_waiter 3%positive constructed) k ∧
    3%positive ∈ _waiters (add_waiter 3%positive constructed) ∧
    ∀ self' : Event,
      (∀ v, fst (k (Resumed v) self') = Return v) ∧
      (∀ e, fst (k (Interrupted e) self') = Raise e) ∧
      ∀ s,
        snd (k s self') = discard_waiter 3%positive self' ∧
        (3%positive ∉ _waiters (snd (k s self'))) ∧
        _waiters (snd (k s self')) = _waiters self' ∖ {[3%positive]} ∧
        same_outcome self' (snd (k s self')).
Proof.
  split; [reflexivity|].
  apply (wait_registers_then_always_leaves 3%positive constructed). reflexivity.
Defined.

(** ** Reachable instances *)

Lemma wait_blocked_inv current self self1 k :
  wait current self = Blocked self1 k →
  _result self = NOT_USED ∧
  self1 = add_waiter current self ∧
  k = (λ s self', (resumed s, discard_waiter current self')).
Proof.
  unfold wait. destruct (_result self).
  - intros [= <- <-]. done.
  - destruct (_exc self); discriminate.
Qed.

Local Ltac close_step :=
  simpl; intros; first [discriminate | congruence | auto].

Lemma op_step_unset_clean self self' :
  op_step self self' → unset_clean self → unset_clean self'.
Proof.
  unfold unset_clean.
  destruct 1 as [result exc self|args self|self|current self
                |current self0 self1 k s self Hw]; intros IH.
  - unfold send. destruct (_result self) eqn:Hr; close_step.
  - unfold send_exception, send. destruct (_result self) eqn:Hr; close_step.
  - unfold reset. destruct (_result self) eqn:Hr; close_step.
  - unfold wait. destruct (_result self) eqn:Hr; [close_step|].
    destruct (_exc self); close_step.
  - apply wait_blocked_inv in Hw as (_ & _ & ->). close_step.
Qed.

Lemma reachable_unset_clean self : reachable self → unset_clean self.
Proof.
  unfold reachable. revert self. apply rtc_ind_r.
  - done.
  - intros y z _ Hstep IH. by eapply op_step_unset_clean.
Qed.

Lemma unset_clean_classified self : unset_clean self → classified self.
Proof.
  intros Hclean.
  split; revert Hclean; unfold unset_clean, ready, has_result, has_exception;
    destruct (_result self) as [|v], (_exc self) as [args|]; intros Hclean;
    try (specialize (Hclean eq_refl)); intuition discriminate.
Qed.

(** C9. In every instance reachable from construction through [send],
    [send_exception], [reset] and [wait] (calls that fail and suspended
    waits that are resumed included), [has_result()] and [has_exception()]
    are never both true, [ready()] is true exactly when one of them is, and
    both are false when [ready()] is false. *)
Theorem reachable_classified (self : Event) :
  reachable self → classified self.
Proof.
  intros Hreach. by apply unset_clean_classified, reachable_unset_clean.
Qed.

Lemma reachable_classified_witness :
  reachable (after (send_exception [boom] constructed)) ∧
  classified (after (send_exception [boom] constructed)).
Proof.
  assert (reachable (after (send_exception [boom] constructed))) as Hreach.
  { apply rtc_once, step_send_exception. }
  split; [exact Hreach|].
  exact (reachable_classified (after (send_exception [boom] constructed)) Hreach).
Defined.

(** ** Polling *)

(** C8. On a reachable instance and for every default [d]: each of [poll],
    [poll_result] and [poll_exception] is the call of [wait()] when its own
    guard ([ready()], [has_result()], [has_exception()]) holds, and that
    [wait()] then finishes on the caller's own turn; when the guard does not
    hold the call returns [d], leaves the instance as it found it, calls no
    port and does not suspend.  In particular all three return [d] and
    change nothing when the outcome is unset. *)
Theorem polls_guarded (d : pyobj) (current : greenlet) (self : Event) :
  reachable self →
  (ready self = true → poll d current self = wait current self) ∧
  (has_result self = true → poll_result d current self = wait current self) ∧
  (has_exception self = true → poll_exception d current self = wait current self) ∧
  (ready self = true ∨ has_result self = true ∨ has_exception self = true →
     ∃ r, wait current self = Finished r self []) ∧
  (ready self = false → poll d current self = Finished (Return d) self []) ∧
  (has_result self = false →
     poll_result d current self = Finished (Return d) self []) ∧
  (has_exception self = false →
     poll_exception d current self = Finished (Return d) self []) ∧
  (_result self = NOT_USED →
     poll d current self = Finished (Return d) self [] ∧
     poll_result d current self = Finished (Return d) self [] ∧
     poll_exception d current self = Finished (Return d) self []).
Proof.
  intros Hclass%reachable_unset_clean%unset_clean_classified.
  destruct Hclass as [_ Hready Hunset].
  unfold poll, poll_result, poll_exception.
  split; [by intros ->|]. split; [by intros ->|]. split; [by intros ->|].
  split.
  { intros Hguard. assert (ready self = true) as Hr by tauto.
    revert Hr. unfold ready, wait.
    destruct (_result self) as [|v]; [discriminate|]. intros _.
    destruct (_exc self); by eexists. }
  split; [by intros ->|]. split; [by intros ->|]. split; [by intros ->|].
  intros Harmed%ready_false. destruct (Hunset Harmed) as [-> ->].
  by rewrite Harmed.
Qed.

Lemma polls_guarded_witness :
  let d := PyStr "not yet" in
  let current := 3%positive in
  let self := constructed in
  reachable self ∧
  (ready self = true → poll d current self = wait current self) ∧
  (has_result self = true → poll_result d current self = wait current self) ∧
  (has_exception self = true → poll_exception d current self = wait current self) ∧
  (ready self = true ∨ has_result self = true ∨ has_exception self = true →
     ∃ r, wait current self = Finished r self []) ∧
  (ready self = false → poll d current self = Finished (Return d) self []) ∧
  (has_result self = false →
     poll_result d current self = Finished (Return d) self []) ∧
  (has_exception self = false →
     poll_exception d current self = Finished (Return d) self []) ∧
  (_result self = NOT_USED →
     poll d current self = Finished (Return d) self [] ∧
     poll_result d current self = Finished (Return d) self [] ∧
     poll_exception d current self = Finished (Return d) self []).
Proof.
  intros d current self.
  split; [apply rtc_refl|].
  apply (polls_guarded d current self). apply rtc_refl.
Defined.

(** ** The sweep *)

Lemma prepend_nil {A} (r : run A) : prepend [] r = r.
Proof. by destruct r. Qed.

Lemma prepend_prepend {A} (log log' : list port_call) (r : run A) :
  prepend log (prepend log' r) = prepend (log ++ log') r.
Proof. destruct r; simpl; [|done]. by rewrite app_assoc. Qed.

Section SweepFacts.

Variable after_wake : port_call → Event → outcome unit * Event.
Variable result : pyobj.
Variable exc : option (list pyobj).

Local Abbreviation sweep := (_do_send after_wake result exc).

Lemma target_wake waiter : target (wake result exc waiter) = Some waiter.
Proof. unfold wake. by destruct exc. Qed.

Lemma do_send_cons_back waiter pops self self' :
  waiter ∈ _waiters self →
  after_wake (wake result exc waiter) self = (Return tt, self') →
  sweep (waiter :: pops) self =
    prepend [wake result exc waiter] (sweep pops self').
Proof. intros Hlive Hback. simpl. by rewrite decide_True, Hback. Qed.

Lemma do_send_cons_raise waiter pops self self' e :
  waiter ∈ _waiters self →
  after_wake (wake result exc waiter) self = (Raise e, self') →
  sweep (waiter :: pops) self =
    Finished (Raise e) self' [wake result exc waiter].
Proof. intros Hlive Hraise. simpl. by rewrite decide_True, Hraise. Qed.

Lemma do_send_cons_gone waiter pops self :
  waiter ∉ _waiters self →
  sweep (waiter :: pops) self = sweep pops self.
Proof. intros Hgone. simpl. by rewrite decide_False. Qed.

(** The sweep runs in the hub and never suspends. *)
Lemma do_send_finished pops self :
  ∃ r self' log, sweep pops self = Finished r self' log.
Proof.
  revert self. induction pops as [|waiter pops IH]; intros self.
  - by eexists _, _, _.
  - destruct (decide (waiter ∈ _waiters self)) as [Hlive|Hgone].
    + destruct (after_wake (wake result exc waiter) self) as [[[]|e] self'] eqn:Hw.
      * rewrite (do_send_cons_back _ _ _ self') by done.
        destruct (IH self') as (r & self'' & log & ->). by eexists _, _, _.
      * rewrite (do_send_cons_raise _ _ _ self' e) by done. by eexists _, _, _.
    + rewrite do_send_cons_gone by done. apply IH.
Qed.

Lemma calls_prepend_do_send log pops self :
  calls (prepend log (sweep pops self)) = log ++ calls (sweep pops self).
Proof. by destruct (do_send_finished pops self) as (r & self' & log' & ->). Qed.

(** The sweep of a copy popped as [before] and then [rest]: if the first
    part comes to its end the second part goes on from there, and if a call
    of the first part raises that is the end of the whole. *)
Lemma do_send_app before rest self :
  sweep (before ++ rest) self =
    match sweep before self with
    | Finished (Return _) self' log => prepend log (sweep rest self')
    | stopped => stopped
    end.
Proof.
  revert self. induction before as [|waiter before IH]; intros self.
  - simpl. by rewrite prepend_nil.
  - rewrite <- app_comm_cons.
    destruct (decide (waiter ∈ _waiters self)) as [Hlive|Hgone].
    + destruct (after_wake (wake result exc waiter) self) as [[[]|e] self'] eqn:Hw.
      * rewrite !(do_send_cons_back _ _ _ self') by done. rewrite IH.
        destruct (sweep before self') as [[[]|e'] self'' log|self'' k]; simpl;
          [|done..].
        by rewrite prepend_prepend.
      * by rewrite !(do_send_cons_raise _ _ _ self' e).
    + rewrite !do_send_cons_gone by done. apply IH.
Qed.

Lemma woken_in_pops pops self g :
  g ∈ woken (calls (sweep pops self)) → g ∈ pops.
Proof.
  revert self. induction pops as [|waiter pops IH]; intros self.
  - simpl. by intros ?%elem_of_nil.
  - destruct (decide (waiter ∈ _waiters self)) as [Hlive|Hgone].
    + destruct (after_wake (wake result exc waiter) self) as [[[]|e] self'] eqn:Hw.
      * rewrite (do_send_cons_back _ _ _ self') by done.
        rewrite calls_prepend_do_send. unfold woken. simpl.
        rewrite target_wake. intros [->|Hin]%elem_of_cons.
        -- apply elem_of_cons. by left.
        -- apply elem_of_cons. right. by eapply IH.
      * rewrite (do_send_cons_raise _ _ _ self' e) by done.
        unfold woken. simpl. rewrite target_wake.
        intros ->%list_elem_of_singleton. apply elem_of_cons. by left.
    + rewrite do_send_cons_gone by done. intros Hin.
      apply elem_of_cons. right. by eapply IH.
Qed.

(** A live greenlet at the head of the copy is called, however the call
    comes back. *)
Lemma do_send_cons_live_woken waiter pops self :
  waiter ∈ _waiters self →
  waiter ∈ woken (calls (sweep (waiter :: pops) self)).
Proof.
  intros Hlive.
  destruct (after_wake (wake result exc waiter) self) as [[[]|e] self'] eqn:Hw.
  - rewrite (do_send_cons_back _ _ _ self') by done.
    rewrite calls_prepend_do_send. unfold woken. simpl. rewrite target_wake.
    apply elem_of_cons. by left.
  - rewrite (do_send_cons_raise _ _ _ self' e) by done.
    unfold woken. simpl. rewrite target_wake. apply elem_of_cons. by left.
Qed.

(** C6. The sweep takes the greenlets of the copied set one at a time, in
    whatever order [pop()] yields them, and stops if one of its calls
    raises.  Whatever the woken greenlets do to the instance when they run,
    a greenlet [g] of the copy is switched to (or thrown into) only if it is
    a member of the live waiter set at the moment it is popped, that is, in
    the instance the sweep of the part of the copy popped before it has come
    to; it is then indeed called.  A greenlet that has left the waiter set
    by then is skipped: the sweep runs as if [g] had not been in the copy.
    Nothing outside the copy is ever woken. *)
Theorem sweep_wakes_only_live_waiters
    (snapshot : gset greenlet) (pops before rest : list greenlet)
    (g : greenlet) (self : Event) :
  pops ≡ₚ elements snapshot →
  pops = before ++ g :: rest →
  (∀ h, h ∈ woken (calls (sweep pops self)) → h ∈ snapshot) ∧
  (g ∈ woken (calls (sweep pops self)) ↔
     ∃ at_g log,
       sweep before self = Finished (Return tt) at_g log ∧
       g ∈ _waiters at_g) ∧
  (g ∉ _waiters (after (sweep before self)) →
     (g ∉ woken (calls (sweep pops self))) ∧
     sweep pops self = sweep (before ++ rest) self).
Proof.
  intros Hperm ->.
  assert (NoDup (before ++ g :: rest)) as Hnodup.
  { rewrite Hperm. apply NoDup_elements. }
  apply NoDup_app in Hnodup as (_ & Hbefore & [Hrest _]%NoDup_cons).
  assert (g ∉ woken (calls (sweep before self))) as Hnot_before.
  { intros Hin%woken_in_pops. destruct (Hbefore g Hin).
    apply elem_of_cons. by left. }
  split; [|split].
  - intros h Hh%woken_in_pops. apply elem_of_elements. by rewrite <- Hperm.
  - rewrite do_send_app.
    destruct (sweep before self) as [[[]|e] at_g log|at_g k] eqn:Hpre;
      simpl in Hnot_before.
    + rewrite calls_prepend_do_send. unfold woken. rewrite omap_app.
      fold (woken log). fold (woken (calls (sweep (g :: rest) at_g))).
      split.
      * intros [Hin|Hin]%elem_of_app; [done|].
        exists at_g, log. split; [done|].
        destruct (decide (g ∈ _waiters at_g)) as [Hlive|Hgone]; [done|].
        rewrite do_send_cons_gone in Hin by done.
        by apply woken_in_pops in Hin.
      * intros (at_g' & log' & [= <- <-] & Hlive).
        apply elem_of_app. right. by apply do_send_cons_live_woken.
    + split; [done|]. by intros (at_g' & log' & [=] & _).
    + split; [done|]. by intros (at_g' & log' & [=] & _).
  - intros Hgone. rewrite !do_send_app.
    destruct (sweep before self) as [[[]|e] at_g log|at_g k] eqn:Hpre;
      simpl in Hgone, Hnot_before; cbv beta iota.
    + rewrite do_send_cons_gone by done. split; [|done].
      rewrite calls_prepend_do_send. unfold woken. rewrite omap_app.
      intros [Hin|Hin]%elem_of_app; [done|].
      by apply woken_in_pops in Hin.
    + done.
    + done.
Qed.

End SweepFacts.

(** The sweep of [two_left] over the copy {1, 2, 3}, popped in that order,
    with waiters that only leave: 1 and 3 are switched to, 2 is not. *)
Lemma sweep_two_left :
  _do_send leaves (PyInt 42) None [1; 2; 3]%positive two_left =
    Finished (Return tt)
      {| _result := Obj (PyInt 42); _exc := None; _waiters := ∅ |}
      [switch 1 (PyInt 42); switch 3 (PyInt 42)].
Proof. vm_compute. reflexivity. Qed.

(** The same copy swept with an error on an instance where all three still
    wait, the first woken greenlet dying of the error: the [throw] raises in
    the hub, the loop is over, and 2 and 3 are still registered. *)
Lemma sweep_first_waiter_dies :
  _do_send dies_of_error PyNone (Some [boom]) [1; 2; 3]%positive
      (set_outcome (Obj PyNone) (Some [boom]) three_waiting) =
    Finished (Raise (Thrown [boom]))
      {| _result := Obj PyNone; _exc := Some [boom];
         _waiters := {[2; 3]}%positive |}
      [throw 1 [boom]].
Proof. vm_compute. reflexivity. Qed.

Lemma sweep_wakes_only_live_waiters_witness :
  [3; 2; 1]%positive ≡ₚ elements ({[1; 2; 3]} : gset greenlet)%positive ∧
  [3; 2; 1]%positive = [3%positive] ++ 2%positive :: [1%positive] ∧
  (∀ h, h ∈ woken (calls (_do_send leaves (PyInt 42) None [3; 2; 1]%positive two_left)) →
        h ∈ ({[1; 2; 3]} : gset greenlet)%positive) ∧
  (2%positive ∈ woken (calls (_do_send leaves (PyInt 42) None [3; 2; 1]%positive two_left)) ↔
     ∃ at_g log,
       _do_send leaves (PyInt 42) None [3%positive] two_left =
         Finished (Return tt) at_g log ∧
       2%positive ∈ _waiters at_g) ∧
  (2%positive ∉ _waiters (after (_do_send leaves (PyInt 42) None [3%positive] two_left)) →
     (2%positive ∉ woken (calls (_do_send leaves (PyInt 42) None [3; 2; 1]%positive two_left))) ∧
     _do_send leaves (PyInt 42) None [3; 2; 1]%positive two_left =
       _do_send leaves (PyInt 42) None ([3%positive] ++ [1%positive]) two_left).
Proof.
  assert ([3; 2; 1]%positive ≡ₚ elements ({[1; 2; 3]} : gset greenlet)%positive)
    as Hperm.
  { vm_compute. reflexivity. }
  split; [exact Hperm|]. split; [reflexivity|].
  exact (sweep_wakes_only_live_waiters leaves (PyInt 42) None
           {[1; 2; 3]}%positive [3; 2; 1]%positive [3%positive] [1%positive]
           2%positive two_left Hperm eq_refl).
Defined.

(** ** A delivery from end to end *)

(** The [finally] clause of a suspended [wait] is what [leaves] does for the
    greenlet the sweep wakes. *)
Lemma wait_cleanup_is_leaves current self0 self1 k result exc s self :
  wait current self0 = Blocked self1 k →
  snd (k s self) = snd (leaves (wake result exc current) self).
Proof.
  intros (_ & _ & ->)%wait_blocked_inv. unfold leaves.
  by rewrite target_wake.
Qed.

(** Three greenlets wait; [send(42)] returns at once having scheduled one
    sweep over a copy of the three and woken nobody. *)
Lemma three_waiting_send :
  send (PyInt 42) PyNone three_waiting =
    Finished (Return tt)
      (set_outcome (Obj (PyInt 42)) None three_waiting)
      [schedule_call_global 0 (do_send_cb (PyInt 42) None {[1; 2; 3]}%positive)].
Proof. vm_compute. reflexivity. Qed.

(** When the hub later runs the callback, each of the three is switched to
    with 42, once, and the waiter set is empty afterwards; [reset()] then
    succeeds and a further [wait()] suspends again. *)
Lemma three_waiting_sweep :
  let fired := set_outcome (Obj (PyInt 42)) None three_waiting in
  let swept := call leaves elements
                    (do_send_cb (PyInt 42) None {[1; 2; 3]}%positive) fired in
  calls swept = [switch 3 (PyInt 42); switch 2 (PyInt 42); switch 1 (PyInt 42)] ∧
  after swept = {| _result := Obj (PyInt 42); _exc := None; _waiters := ∅ |} ∧
  reset (after swept) = Finished (Return tt) constructed [] ∧
  after (wait 4 constructed) = add_waiter 4 constructed.
Proof. vm_compute. repeat split; reflexivity. Qed.

(** ** Construction and rearming *)

(** X1. [Event()] returns normally: the assertion of the [reset()] that
    [__init__] runs passes because [_result] is still the class attribute
    [None].  The instance it leaves is not ready, has neither a result nor
    an exception, has no waiter, and a [wait()] on it suspends. *)
Theorem fresh_event_is_unset :
  __init__ = Finished (Return tt) constructed [] ∧
  ready constructed = false ∧
  has_result constructed = false ∧
  has_exception constructed = false ∧
  _waiters constructed = ∅ ∧
  ∀ current : greenlet,
    ∃ k, wait current constructed = Blocked (add_waiter current constructed) k.
Proof.
  repeat split. intros current. by eexists.
Qed.

(** X2. [reset()] on a fired instance returns normally without calling any
    port, keeps the waiter set, and leaves nothing of the old delivery
    behind, not even its error: the instance is not ready and has neither
    result nor exception.  A following [send(v)] goes through and [wait()]
    then returns [v]. *)
Theorem reset_rearms (v : pyobj) (self : Event) :
  ready self = true →
  ∃ armed fired log,
    reset self = Finished (Return tt) armed [] ∧
    _waiters armed = _waiters self ∧
    ready armed = false ∧
    has_result armed = false ∧
    has_exception armed = false ∧
    send v PyNone armed = Finished (Return tt) fired log ∧
    has_result fired = true ∧
    has_exception fired = false ∧
    ∀ current : greenlet, wait current fired = Finished (Return v) fired [].
Proof.
  intros Hfired%ready_spec.
  eexists _, _, _. split; [by apply reset_fired|].
  do 4 (split; [done|]).
  split; [by apply send_armed|]. done.
Qed.

Lemma reset_rearms_witness :
  let failed := after (send_exception [boom] one_waiter) in
  ready failed = true ∧
  ∃ armed fired log,
    reset failed = Finished (Return tt) armed [] ∧
    _waiters armed = _waiters failed ∧
    ready armed = false ∧
    has_result armed = false ∧
    has_exception armed = false ∧
    send (PyInt 2) PyNone armed = Finished (Return tt) fired log ∧
    has_result fired = true ∧
    has_exception fired = false ∧
    ∀ current : greenlet, wait current fired = Finished (Return (PyInt 2)) fired [].
Proof.
  intros failed. split; [reflexivity|].
  apply (reset_rearms (PyInt 2) failed). reflexivity.
Defined.

(** X3. Two calls of [reset()] in a row: on a fired instance the first one
    succeeds and the second one raises
    [AssertionError: Trying to re-reset() a fresh event.], leaving the
    instance as the first call left it. *)
Theorem reset_twice_fails (self : Event) :
  ready self = true →
  ∃ armed,
    reset self = Finished (Return tt) armed [] ∧
    reset armed =
      Finished (Raise (AssertionError "Trying to re-reset() a fresh event."))
               armed [].
Proof.
  intros Hfired%ready_spec. eexists. split; [by apply reset_fired|].
  by apply reset_fresh.
Qed.

Lemma reset_twice_fails_witness :
  ready two_left = true ∧
  ∃ armed,
    reset two_left = Finished (Return tt) armed [] ∧
    reset armed =
      Finished (Raise (AssertionError "Trying to re-reset() a fresh event."))
               armed [].
Proof.
  split; [reflexivity|]. apply (reset_twice_fails two_left). reflexivity.
Defined.

(** ** What [send] stores *)

(** X4. After [send(result, exc)] on an armed instance the instance is
    ready, and it holds an exception exactly when [exc] is not [None] and a
    result exactly when [exc] is [None].  The test is identity with [None],
    not truth: an empty tuple passed as [exc] is an exception too. *)
Theorem send_outcome_by_exc (result exc : pyobj) (self : Event) :
  _result self = NOT_USED →
  ready (after (send result exc self)) = true ∧
  (has_exception (after (send result exc self)) = true ↔ exc ≠ PyNone) ∧
  (has_result (after (send result exc self)) = true ↔ exc = PyNone) ∧
  has_exception (after (send result (PyTuple []) self)) = true.
Proof.
  intros Harmed. rewrite !send_armed by done. simpl.
  unfold has_exception, has_result. simpl.
  split; [done|]. destruct exc; simpl; intuition (done || discriminate).
Qed.

Lemma send_outcome_by_exc_witness :
  _result one_waiter = NOT_USED ∧
  ready (after (send (PyInt 1) boom one_waiter)) = true ∧
  (has_exception (after (send (PyInt 1) boom one_waiter)) = true ↔ boom ≠ PyNone) ∧
  (has_result (after (send (PyInt 1) boom one_waiter)) = true ↔ boom = PyNone) ∧
  has_exception (after (send (PyInt 1) (PyTuple []) one_waiter)) = true.
Proof.
  split; [reflexivity|].
  apply (send_outcome_by_exc (PyInt 1) boom one_waiter). reflexivity.
Defined.

(** X5. An error that is neither [None] nor a tuple is wrapped into a
    one-item tuple before anything else looks at it, so [send(v, e)] and
    [send(v, (e,))] are the same call, whatever the state of the instance;
    in particular [send(None, e)] is [send_exception(e)]. *)
Theorem send_wraps_bare_error (v e : pyobj) (self : Event) :
  e ≠ PyNone →
  (∀ items, e ≠ PyTuple items) →
  send v e self = send v (PyTuple [e]) self ∧
  send PyNone e self = send_exception [e] self.
Proof.
  intros Hnone Htuple. unfold send_exception, send.
  assert (as_exc_tuple e = as_exc_tuple (PyTuple [e])) as ->; [|done].
  destruct e; simpl; try done. by destruct (Htuple items).
Qed.

Lemma send_wraps_bare_error_witness :
  boom ≠ PyNone ∧
  (∀ items, boom ≠ PyTuple items) ∧
  send (PyInt 1) boom one_waiter = send (PyInt 1) (PyTuple [boom]) one_waiter ∧
  send PyNone boom one_waiter = send_exception [boom] one_waiter.
Proof.
  split; [discriminate|]. split; [discriminate|].
  apply (send_wraps_bare_error (PyInt 1) boom one_waiter); discriminate.
Defined.

(** X6. [send_exception] takes any number of arguments, as [throw] does.
    On an armed instance the tuple of all of them becomes the stored error,
    whatever its length: the instance has an exception and no result, every
    [wait()] on an instance that still holds that outcome raises from
    exactly those arguments, and the sweep it schedules throws them, never
    switching to a waiter with a value. *)
Theorem send_exception_any_args (args : list pyobj) (self : Event) :
  _result self = NOT_USED →
  ∃ self' log,
    send_exception args self = Finished (Return tt) self' log ∧
    has_exception self' = true ∧
    has_result self' = false ∧
    (∀ cb, cb ∈ scheduled log → cb = do_send_cb PyNone (Some args) (_waiters self)) ∧
    (∀ waiter, wake PyNone (Some args) waiter = throw waiter args) ∧
    ∀ (current : greenlet) (later : Event),
      same_outcome self' later →
      wait current later = Finished (Raise (Thrown args)) later [].
Proof.
  intros Harmed. unfold send_exception. eexists _, _.
  split; [by apply send_armed|]. simpl.
  split; [done|]. split; [done|]. split; [|split; [done|]].
  - intros cb. case_decide; simpl.
    + by intros ?%elem_of_nil.
    + by intros ->%list_elem_of_singleton.
  - intros current later [Hr He]. simpl in Hr, He.
    by apply (wait_fired_error current later PyNone args).
Qed.

Lemma send_exception_any_args_witness :
  _result one_waiter = NOT_USED ∧
  ∃ self' log,
    send_exception [] one_waiter = Finished (Return tt) self' log ∧
    has_exception self' = true ∧
    has_result self' = false ∧
    (∀ cb, cb ∈ scheduled log → cb = do_send_cb PyNone (Some []) (_waiters one_waiter)) ∧
    (∀ waiter, wake PyNone (Some []) waiter = throw waiter []) ∧
    ∀ (current : greenlet) (later : Event),
      same_outcome self' later →
      wait current later = Finished (Raise (Thrown [])) later [].
Proof.
  split; [reflexivity|].
  apply (send_exception_any_args [] one_waiter). reflexivity.
Defined.

(** ** Polling a fired instance *)

(** X7. On an instance fired with a value [v], [poll] and [poll_result]
    return [v] and [poll_exception] returns the default.  On an instance
    fired with an error, [poll] and [poll_exception] do not hand the error
    back as a value: they raise it into the caller, and [poll_result]
    returns the default.  None of the six calls suspends, calls a port or
    changes the instance. *)
Theorem polls_on_fired (d v : pyobj) (current : greenlet) (self : Event) :
  _result self = Obj v →
  (_exc self = None →
     poll d current self = Finished (Return v) self [] ∧
     poll_result d current self = Finished (Return v) self [] ∧
     poll_exception d current self = Finished (Return d) self []) ∧
  (∀ args, _exc self = Some args →
     poll d current self = Finished (Raise (Thrown args)) self [] ∧
     poll_exception d current self = Finished (Raise (Thrown args)) self [] ∧
     poll_result d current self = Finished (Return d) self []).
Proof.
  intros Hr. unfold poll, poll_result, poll_exception, ready, has_result,
    has_exception, wait. rewrite Hr.
  split; [intros -> | intros args ->]; done.
Qed.

Lemma polls_on_fired_witness :
  let failed := after (send (PyInt 1) boom constructed) in
  _result failed = Obj (PyInt 1) ∧
  (_exc failed = None →
     poll PyNone 3 failed = Finished (Return (PyInt 1)) failed [] ∧
     poll_result PyNone 3 failed = Finished (Return (PyInt 1)) failed [] ∧
     poll_exception PyNone 3 failed = Finished (Return PyNone) failed []) ∧
  (∀ args, _exc failed = Some args →
     poll PyNone 3 failed = Finished (Raise (Thrown args)) failed [] ∧
     poll_exception PyNone 3 failed = Finished (Raise (Thrown args)) failed [] ∧
     poll_result PyNone 3 failed = Finished (Return PyNone) failed []).
Proof.
  intros failed. split; [reflexivity|].
  apply (polls_on_fired PyNone (PyInt 1) 3%positive failed). reflexivity.
Defined.

(** ** More on the sweep *)

Lemma after_prepend {A} (log : list port_call) (r : run A) :
  after (prepend log r) = after r.
Proof. by destruct r. Qed.

Lemma completed_prepend (log : list port_call) (r : run unit) :
  completed (prepend log r) ↔ completed r.
Proof.
  destruct r as [o self log'|self k]; simpl; [|done].
  split; intros (s & l & [= -> -> _]); by eexists _, _.
Qed.

Lemma woken_wakes result exc (served : list greenlet) :
  woken (wake result exc <$> served) = served.
Proof.
  induction served as [|g served IH]; [done|].
  unfold woken in *. simpl. rewrite target_wake. simpl. f_equal. exact IH.
Qed.

Section SweepShape.

Variable after_wake : port_call → Event → outcome unit * Event.
Variable result : pyobj.
Variable exc : option (list pyobj).

Local Abbreviation sweep := (_do_send after_wake result exc).

Lemma do_send_log_is_wakes pops self :
  calls (sweep pops self) = wake result exc <$> woken (calls (sweep pops self)).
Proof.
  revert self. induction pops as [|waiter pops IH]; intros self; [done|].
  destruct (decide (waiter ∈ _waiters self)) as [Hlive|Hgone].
  - destruct (after_wake (wake result exc waiter) self) as [[[]|e] self'] eqn:Hw.
    + rewrite (do_send_cons_back after_wake result exc waiter pops self self')
        by done.
      rewrite calls_prepend_do_send. unfold woken. simpl.
      rewrite target_wake. simpl. f_equal. apply IH.
    + rewrite (do_send_cons_raise after_wake result exc waiter pops self self' e)
        by done.
      unfold woken. simpl. by rewrite target_wake.
  - rewrite do_send_cons_gone by done. apply IH.
Qed.

Lemma do_send_woken_sublist pops self :
  woken (calls (sweep pops self)) `sublist_of` pops.
Proof.
  revert self. induction pops as [|waiter pops IH]; intros self; [done|].
  destruct (decide (waiter ∈ _waiters self)) as [Hlive|Hgone].
  - destruct (after_wake (wake result exc waiter) self) as [[[]|e] self'] eqn:Hw.
    + rewrite (do_send_cons_back after_wake result exc waiter pops self self')
        by done.
      rewrite calls_prepend_do_send. unfold woken. simpl.
      rewrite target_wake. apply sublist_skip, IH.
    + rewrite (do_send_cons_raise after_wake result exc waiter pops self self' e)
        by done.
      unfold woken. simpl. rewrite target_wake.
      apply sublist_skip, sublist_nil_l.
  - rewrite do_send_cons_gone by done. apply sublist_cons, IH.
Qed.

Lemma do_send_nobody_live pops self :
  (∀ g, g ∈ pops → g ∉ _waiters self) →
  sweep pops self = Finished (Return tt) self [].
Proof.
  induction pops as [|waiter pops IH]; intros Hgone; [done|].
  rewrite do_send_cons_gone.
  - apply IH. intros g Hg. apply Hgone, elem_of_cons. by right.
  - apply Hgone, elem_of_cons. by left.
Qed.

(** X8. Whatever the woken greenlets do to the instance and however their
    calls come back, one sweep issues only the call frozen when it was
    scheduled, a [switch] with the result when the error is [None] and a
    [throw] of the error otherwise, even if the instance has been reset or
    sent again since; it schedules nothing; and the greenlets it wakes are a
    sublist of the popped copy, so none is woken twice. *)
Theorem sweep_log_shape (pops : list greenlet) (self : Event) :
  NoDup pops →
  calls (sweep pops self) = wake result exc <$> woken (calls (sweep pops self)) ∧
  scheduled (calls (sweep pops self)) = [] ∧
  woken (calls (sweep pops self)) `sublist_of` pops ∧
  NoDup (woken (calls (sweep pops self))).
Proof.
  intros Hnodup. split; [apply do_send_log_is_wakes|]. split.
  - rewrite do_send_log_is_wakes. unfold scheduled.
    induction (woken (calls (sweep pops self))) as [|g gs IH]; [done|].
    simpl. unfold wake at 1. by destruct exc.
  - split; [apply do_send_woken_sublist|].
    eapply sublist_NoDup; [done | apply do_send_woken_sublist].
Qed.

(** X9. If none of the popped greenlets is in the live waiter set any more
    (each has left its [wait] on its own) the sweep wakes nobody, returns
    normally and leaves the instance as it is. *)
Theorem sweep_all_gone (pops : list greenlet) (self : Event) :
  (∀ g, g ∈ pops → g ∉ _waiters self) →
  sweep pops self = Finished (Return tt) self [].
Proof. apply do_send_nobody_live. Qed.

(** X16. Nothing in [_do_send] catches what [switch] or [throw] raise.  If
    the part of the copy popped before a live greenlet [g] has been swept to
    its end and the call on [g] raises, the error leaves [_do_send] right
    there: the calls issued are those of the first part and the one on [g],
    the instance stays as that call left it, and none of the greenlets that
    were to be popped after [g] is woken by this sweep, waiting or not. *)
Theorem sweep_stops_at_raising_call
    (before rest : list greenlet) (g : greenlet) (e : pyexn)
    (self at_g self' : Event) (log : list port_call) :
  NoDup (before ++ g :: rest) →
  sweep before self = Finished (Return tt) at_g log →
  g ∈ _waiters at_g →
  after_wake (wake result exc g) at_g = (Raise e, self') →
  sweep (before ++ g :: rest) self =
    Finished (Raise e) self' (log ++ [wake result exc g]) ∧
  ∀ h, h ∈ rest → h ∉ woken (calls (sweep (before ++ g :: rest) self)).
Proof.
  intros Hnodup Hpre Hlive Hraise.
  assert (sweep (before ++ g :: rest) self =
            Finished (Raise e) self' (log ++ [wake result exc g])) as Heq.
  { rewrite do_send_app, Hpre.
    by rewrite (do_send_cons_raise after_wake result exc g rest at_g self' e). }
  split; [done|]. intros h Hh. rewrite Heq. simpl.
  apply NoDup_app in Hnodup as (_ & Hbefore & [Hg _]%NoDup_cons).
  unfold woken. rewrite omap_app. simpl. rewrite target_wake.
  intros [Hin|Hin]%elem_of_app.
  - assert (h ∈ before) as Hb.
    { apply (woken_in_pops after_wake result exc before self).
      by rewrite Hpre. }
    destruct (Hbefore h Hb). apply elem_of_cons. by right.
  - apply list_elem_of_singleton in Hin as ->. done.
Qed.

End SweepShape.

Local Ltac by_decide :=
  match goal with
  | |- ?P => apply (bool_decide_unpack P); vm_compute; exact I
  end.

Lemma sweep_log_shape_witness :
  NoDup [3; 2; 1]%positive ∧
  calls (_do_send dies_of_error (PyInt 42) None [3; 2; 1]%positive two_left) =
    wake (PyInt 42) None <$>
      woken (calls (_do_send dies_of_error (PyInt 42) None [3; 2; 1]%positive two_left)) ∧
  scheduled (calls (_do_send dies_of_error (PyInt 42) None [3; 2; 1]%positive two_left)) = [] ∧
  woken (calls (_do_send dies_of_error (PyInt 42) None [3; 2; 1]%positive two_left))
    `sublist_of` [3; 2; 1]%positive ∧
  NoDup (woken (calls (_do_send dies_of_error (PyInt 42) None [3; 2; 1]%positive two_left))).
Proof.
  assert (NoDup [3; 2; 1]%positive) as Hnodup.
  { by_decide. }
  split; [exact Hnodup|].
  exact (sweep_log_shape dies_of_error (PyInt 42) None [3; 2; 1]%positive
           two_left Hnodup).
Defined.

Lemma sweep_all_gone_witness :
  (∀ g : greenlet, g ∈ [2%positive] → g ∉ _waiters two_left) ∧
  _do_send leaves PyNone (Some [boom]) [2%positive] two_left =
    Finished (Return tt) two_left [].
Proof.
  assert (∀ g : greenlet, g ∈ [2%positive] → g ∉ _waiters two_left) as Hgone.
  { intros g ->%list_elem_of_singleton. by_decide. }
  split; [exact Hgone|].
  exact (sweep_all_gone leaves PyNone (Some [boom]) [2%positive] two_left Hgone).
Defined.

Lemma sweep_stops_at_raising_call_witness :
  let failed := set_outcome (Obj PyNone) (Some [boom]) three_waiting in
  NoDup ([] ++ 1%positive :: [2; 3]%positive) ∧
  _do_send dies_of_error PyNone (Some [boom]) [] failed =
    Finished (Return tt) failed [] ∧
  1%positive ∈ _waiters failed ∧
  dies_of_error (wake PyNone (Some [boom]) 1%positive) failed =
    (Raise (Thrown [boom]), discard_waiter 1%positive failed) ∧
  _do_send dies_of_error PyNone (Some [boom]) ([] ++ 1%positive :: [2; 3]%positive) failed =
    Finished (Raise (Thrown [boom])) (discard_waiter 1%positive failed)
      ([] ++ [wake PyNone (Some [boom]) 1%positive]) ∧
  ∀ h, h ∈ [2; 3]%positive →
    h ∉ woken (calls (_do_send dies_of_error PyNone (Some [boom])
                        ([] ++ 1%positive :: [2; 3]%positive) failed)).
Proof.
  intros failed.
  assert (NoDup ([] ++ 1%positive :: [2; 3]%positive)) as Hnodup by by_decide.
  assert (1%positive ∈ _waiters failed) as Hlive by by_decide.
  split; [exact Hnodup|]. split; [reflexivity|]. split; [exact Hlive|].
  split; [reflexivity|].
  exact (sweep_stops_at_raising_call dies_of_error PyNone (Some [boom])
           [] [2; 3]%positive 1%positive (Thrown [boom])
           failed failed (discard_waiter 1%positive failed) []
           Hnodup eq_refl Hlive eq_refl).
Defined.

(** ** Sweeps over waiters that only leave *)

Set Warnings "-clear-no-such-hyp".

Lemma filter_live_discard (live : gset greenlet) (g : greenlet) (pops : list greenlet) :
  g ∉ pops →
  filter (λ h, h ∈ live ∖ {[g]}) pops = filter (λ h, h ∈ live) pops.
Proof.
  induction pops as [|h pops IH]; intros Hg; [done|].
  apply not_elem_of_cons in Hg as [Hne Hg].
  rewrite !filter_cons, IH by done.
  destruct (decide (h ∈ live)) as [Hin|Hout].
  - rewrite decide_True; [done|]. apply elem_of_difference. split; [done|].
    by intros ?%elem_of_singleton.
  - rewrite decide_False; [done|]. by intros [? _]%elem_of_difference.
Qed.

Lemma filter_all_live (live : gset greenlet) (pops : list greenlet) :
  (∀ g, g ∈ pops → g ∈ live) →
  filter (λ g, g ∈ live) pops = pops.
Proof.
  induction pops as [|g pops IH]; intros Hall; [done|].
  rewrite filter_cons, decide_True, IH; [done| |].
  - intros h Hh. apply Hall, elem_of_cons. by right.
  - apply Hall, elem_of_cons. by left.
Qed.

Lemma only_leaves_leaves : only_leaves leaves.
Proof. by intros c self. Qed.

Lemma only_leaves_dies_of_error : only_leaves dies_of_error.
Proof. intros c self. by destruct c. Qed.

Section SweepLeaves.

Variable after_wake : port_call → Event → outcome unit * Event.
Variable result : pyobj.
Variable exc : option (list pyobj).
Hypothesis Hleave : only_leaves after_wake.

Local Abbreviation sweep := (_do_send after_wake result exc).

Lemma only_leaves_wake waiter self :
  snd (after_wake (wake result exc waiter) self) = discard_waiter waiter self.
Proof. rewrite Hleave. unfold leaves. simpl. by rewrite target_wake. Qed.

(** The greenlets such a sweep serves are a prefix of the live members of
    the copy, in pop order: all of them if no call raises, those up to the
    one whose call raised otherwise. *)
Lemma do_send_only_leaves pops self :
  NoDup pops →
  ∃ served,
    served `prefix_of` filter (λ g, g ∈ _waiters self) pops ∧
    calls (sweep pops self) = wake result exc <$> served ∧
    after (sweep pops self) =
      {| _result := _result self; _exc := _exc self;
         _waiters := _waiters self ∖ list_to_set served |} ∧
    (completed (sweep pops self) →
       served = filter (λ g, g ∈ _waiters self) pops).
Proof.
  revert self. induction pops as [|waiter pops IH]; intros self Hnodup.
  - exists []. split; [done|]. split; [done|]. split; [|done].
    simpl. destruct self as [r e w]. simpl. f_equal.
    apply leibniz_equiv. set_solver.
  - apply NoDup_cons in Hnodup as [Hfresh Hnodup].
    destruct (decide (waiter ∈ _waiters self)) as [Hlive|Hgone].
    + pose proof (only_leaves_wake waiter self) as Hself'.
      destruct (after_wake (wake result exc waiter) self) as [[[]|e] self'] eqn:Hw;
        simpl in Hself'; subst self'.
      * rewrite (do_send_cons_back after_wake result exc waiter pops self
                   (discard_waiter waiter self)) by done.
        destruct (IH (discard_waiter waiter self) Hnodup)
          as (served & Hpre & Hcalls & Hafter & Hall).
        simpl in Hpre, Hall. rewrite filter_live_discard in Hpre, Hall by done.
        exists (waiter :: served).
        rewrite filter_cons, decide_True by done.
        split; [by apply prefix_cons|].
        split; [by rewrite calls_prepend_do_send, Hcalls|].
        split.
        -- rewrite after_prepend, Hafter. simpl. f_equal.
           apply leibniz_equiv. set_solver.
        -- intros Hc%completed_prepend. f_equal. by apply Hall.
      * rewrite (do_send_cons_raise after_wake result exc waiter pops self
                   (discard_waiter waiter self) e) by done.
        exists [waiter]. rewrite filter_cons, decide_True by done.
        split; [apply prefix_cons, prefix_nil|]. split; [done|].
        split.
        -- unfold discard_waiter. simpl. f_equal.
           apply leibniz_equiv. set_solver.
        -- by intros (s & l & [=]).
    + rewrite do_send_cons_gone by done.
      destruct (IH self Hnodup) as (served & Hpre & Hcalls & Hafter & Hall).
      exists served. rewrite filter_cons, decide_False by done. done.
Qed.

(** X10. When each woken greenlet does no more to the instance than run the
    [finally] clause of its [wait], a sweep over a copy without repetitions
    serves, in pop order and each once, the members of the copy that are
    live waiters when the sweep starts: all of them if none of its calls
    raises, and those up to and including the one whose call raised
    otherwise.  The outcome of the instance is untouched and exactly the
    served greenlets have left the waiter set; after a sweep that came to
    its end that is every greenlet of the copy. *)
Theorem sweep_of_leaving_waiters (pops : list greenlet) (self : Event) :
  NoDup pops →
  ∃ served,
    served `prefix_of` filter (λ g, g ∈ _waiters self) pops ∧
    calls (sweep pops self) = wake result exc <$> served ∧
    _result (after (sweep pops self)) = _result self ∧
    _exc (after (sweep pops self)) = _exc self ∧
    _waiters (after (sweep pops self)) = _waiters self ∖ list_to_set served ∧
    (completed (sweep pops self) →
       served = filter (λ g, g ∈ _waiters self) pops ∧
       _waiters (after (sweep pops self)) = _waiters self ∖ list_to_set pops).
Proof.
  intros Hnodup.
  destruct (do_send_only_leaves pops self Hnodup)
    as (served & Hpre & Hcalls & Hafter & Hall).
  exists served. rewrite Hafter. simpl.
  do 5 (split; [done|]).
  intros Hc. rewrite (Hall Hc). split; [done|].
  apply leibniz_equiv. intros g.
  rewrite !elem_of_difference, !elem_of_list_to_set, list_elem_of_filter.
  tauto.
Qed.

End SweepLeaves.

(** X11. No waiter is resumed twice.  With woken greenlets that only leave
    their [wait], a greenlet woken by one sweep is not woken by any later
    sweep (a second callback still queued, whatever it carries), also when
    the first sweep was cut short by a raising call; and when the first
    sweep came to its end, a later sweep over any of the same greenlets
    wakes nobody and leaves the instance alone. *)
Theorem no_waiter_woken_by_two_sweeps
    (after_wake after_wake' : port_call → Event → outcome unit * Event)
    (result result' : pyobj) (exc exc' : option (list pyobj))
    (pops again : list greenlet) (self : Event) :
  only_leaves after_wake →
  only_leaves after_wake' →
  NoDup pops →
  NoDup again →
  (∀ g, g ∈ woken (calls (_do_send after_wake result exc pops self)) →
        g ∉ woken (calls (_do_send after_wake' result' exc' again
                            (after (_do_send after_wake result exc pops self))))) ∧
  (completed (_do_send after_wake result exc pops self) →
   again ⊆ pops →
   _do_send after_wake' result' exc' again
       (after (_do_send after_wake result exc pops self)) =
     Finished (Return tt) (after (_do_send after_wake result exc pops self)) []).
Proof.
  intros Hleave Hleave' Hnodup Hnodup'.
  destruct (do_send_only_leaves after_wake result exc Hleave pops self Hnodup)
    as (served & Hpre & Hcalls & Hafter & Hall).
  split.
  - destruct (do_send_only_leaves after_wake' result' exc' Hleave' again
                (after (_do_send after_wake result exc pops self)) Hnodup')
      as (served' & Hpre' & Hcalls' & _).
    rewrite Hcalls, Hcalls', !woken_wakes. intros g Hg Hg'.
    apply (elem_of_prefix _ _ _ Hg') in Hpre'.
    apply list_elem_of_filter in Hpre' as [Hin _].
    rewrite Hafter in Hin. simpl in Hin.
    apply elem_of_difference in Hin as [_ Hout].
    by apply Hout, elem_of_list_to_set.
  - intros Hc Hsub. apply do_send_nobody_live. intros g Hg.
    rewrite Hafter. simpl. rewrite (Hall Hc).
    rewrite elem_of_difference, elem_of_list_to_set, list_elem_of_filter.
    intros [Hin Hout]. apply Hout. split; [done|]. by apply Hsub.
Qed.

Lemma sweep_of_leaving_waiters_witness :
  let failed := set_outcome (Obj PyNone) (Some [boom]) three_waiting in
  only_leaves dies_of_error ∧
  NoDup [3; 2; 1]%positive ∧
  ∃ served,
    served `prefix_of` filter (λ g, g ∈ _waiters failed) [3; 2; 1]%positive ∧
    calls (_do_send dies_of_error PyNone (Some [boom]) [3; 2; 1]%positive failed) =
      wake PyNone (Some [boom]) <$> served ∧
    _result (after (_do_send dies_of_error PyNone (Some [boom]) [3; 2; 1]%positive failed)) =
      _result failed ∧
    _exc (after (_do_send dies_of_error PyNone (Some [boom]) [3; 2; 1]%positive failed)) =
      _exc failed ∧
    _waiters (after (_do_send dies_of_error PyNone (Some [boom]) [3; 2; 1]%positive failed)) =
      _waiters failed ∖ list_to_set served ∧
    (completed (_do_send dies_of_error PyNone (Some [boom]) [3; 2; 1]%positive failed) →
       served = filter (λ g, g ∈ _waiters failed) [3; 2; 1]%positive ∧
       _waiters (after (_do_send dies_of_error PyNone (Some [boom]) [3; 2; 1]%positive failed)) =
         _waiters failed ∖ list_to_set [3; 2; 1]%positive).
Proof.
  intros failed.
  assert (NoDup [3; 2; 1]%positive) as Hnodup by by_decide.
  split; [exact only_leaves_dies_of_error|]. split; [exact Hnodup|].
  exact (sweep_of_leaving_waiters dies_of_error PyNone (Some [boom])
           only_leaves_dies_of_error [3; 2; 1]%positive failed Hnodup).
Defined.

Lemma no_waiter_woken_by_two_sweeps_witness :
  let failed := set_outcome (Obj PyNone) (Some [boom]) three_waiting in
  let first := _do_send dies_of_error PyNone (Some [boom]) [1; 2; 3]%positive failed in
  only_leaves dies_of_error ∧
  only_leaves leaves ∧
  NoDup [1; 2; 3]%positive ∧
  NoDup [3; 1; 2]%positive ∧
  (∀ g, g ∈ woken (calls first) →
        g ∉ woken (calls (_do_send leaves (PyInt 7) None [3; 1; 2]%positive
                            (after first)))) ∧
  (completed first →
   [3; 1; 2]%positive ⊆ [1; 2; 3]%positive →
   _do_send leaves (PyInt 7) None [3; 1; 2]%positive (after first) =
     Finished (Return tt) (after first) []).
Proof.
  intros failed first.
  assert (NoDup [1; 2; 3]%positive) as Hnodup by by_decide.
  assert (NoDup [3; 1; 2]%positive) as Hnodup' by by_decide.
  split; [exact only_leaves_dies_of_error|].
  split; [exact only_leaves_leaves|].
  split; [exact Hnodup|]. split; [exact Hnodup'|].
  exact (no_waiter_woken_by_two_sweeps dies_of_error leaves
           PyNone (PyInt 7) (Some [boom]) None
           [1; 2; 3]%positive [3; 1; 2]%positive failed
           only_leaves_dies_of_error only_leaves_leaves Hnodup Hnodup').
Defined.

(** What the second sweep of that run does: 1 was served by the first one,
    which its dying cut short, and is passed over; 3 and 2 are still waiting
    and are woken now. *)
Lemma second_sweep_after_abort :
  let failed := set_outcome (Obj PyNone) (Some [boom]) three_waiting in
  calls (_do_send leaves (PyInt 7) None [3; 1; 2]%positive
           (after (_do_send dies_of_error PyNone (Some [boom])
                     [1; 2; 3]%positive failed))) =
    [switch 3 (PyInt 7); switch 2 (PyInt 7)].
Proof. vm_compute. reflexivity. Qed.

(** ** From [send] to the sweep *)

Lemma pops_each_once_elements : pops_each_once elements.
Proof. by intros waiters. Qed.

Lemma do_send_completes after_wake result exc pops self :
  (∀ c self', fst (after_wake c self') = Return tt) →
  completed (_do_send after_wake result exc pops self).
Proof.
  intros Hback. revert self.
  induction pops as [|waiter pops IH]; intros self.
  - by eexists _, _.
  - destruct (decide (waiter ∈ _waiters self)) as [Hlive|Hgone].
    + pose proof (Hback (wake result exc waiter) self) as Hfst.
      destruct (after_wake (wake result exc waiter) self) as [o self'] eqn:Hw.
      simpl in Hfst. subst o.
      rewrite (do_send_cons_back after_wake result exc waiter pops self self')
        by done.
      by apply completed_prepend.
    + rewrite do_send_cons_gone by done. apply IH.
Qed.

(** X12. A delivery from end to end.  [send] on an armed instance with
    waiters schedules one callback, holding what was sent and a copy of the
    waiter set.  When the hub runs it, in whatever order the copy is popped
    and with woken greenlets that do no more than leave their [wait], the
    greenlets that were waiting when [send] was called are woken one by one
    with what was sent (switched to with the result, or thrown the
    normalised error), none twice, and leave the waiter set as they are
    served.  If no call raises in the hub the sweep comes to its end, and
    then every one of them has been woken and the instance is left fired
    with that outcome and an empty waiter set. *)
Theorem send_then_sweep_reaches_all
    (after_wake : port_call → Event → outcome unit * Event)
    (pop_order : gset greenlet → list greenlet)
    (result exc : pyobj) (self : Event) :
  _result self = NOT_USED →
  _waiters self ≠ ∅ →
  pops_each_once pop_order →
  only_leaves after_wake →
  ∃ self' cb served,
    send result exc self = Finished (Return tt) self' [schedule_call_global 0 cb] ∧
    served `prefix_of` pop_order (_waiters self) ∧
    calls (call after_wake pop_order cb self') =
      wake result (as_exc_tuple exc) <$> served ∧
    after (call after_wake pop_order cb self') =
      {| _result := Obj result; _exc := as_exc_tuple exc;
         _waiters := _waiters self ∖ list_to_set served |} ∧
    (completed (call after_wake pop_order cb self') →
       served = pop_order (_waiters self) ∧
       _waiters (after (call after_wake pop_order cb self')) = ∅) ∧
    ((∀ c self'', fst (after_wake c self'') = Return tt) →
       completed (call after_wake pop_order cb self')).
Proof.
  intros Harmed Hwaiters Hpops Hleave. eexists _, _.
  assert (NoDup (pop_order (_waiters self))) as Hnodup.
  { rewrite (Hpops (_waiters self)). apply NoDup_elements. }
  destruct (do_send_only_leaves after_wake result (as_exc_tuple exc) Hleave
              (pop_order (_waiters self))
              (set_outcome (Obj result) (as_exc_tuple exc) self) Hnodup)
    as (served & Hpre & Hcalls & Hafter & Hall).
  simpl in Hpre, Hall.
  rewrite filter_all_live in Hpre, Hall.
  2, 3: intros g Hg; apply elem_of_elements; by rewrite <- (Hpops (_waiters self)).
  exists served.
  split; [by rewrite send_armed, decide_False by done|].
  simpl. split; [done|]. split; [done|]. split; [done|]. split.
  - intros Hc. rewrite (Hall Hc). split; [done|].
    rewrite Hafter. simpl. rewrite (Hall Hc).
    rewrite (Hpops (_waiters self)), list_to_set_elements_L.
    apply difference_diag_L.
  - apply do_send_completes.
Qed.

Lemma send_then_sweep_reaches_all_witness :
  _result three_waiting = NOT_USED ∧
  _waiters three_waiting ≠ ∅ ∧
  pops_each_once elements ∧
  only_leaves dies_of_error ∧
  ∃ self' cb served,
    send PyNone boom three_waiting =
      Finished (Return tt) self' [schedule_call_global 0 cb] ∧
    served `prefix_of` elements (_waiters three_waiting) ∧
    calls (call dies_of_error elements cb self') =
      wake PyNone (as_exc_tuple boom) <$> served ∧
    after (call dies_of_error elements cb self') =
      {| _result := Obj PyNone; _exc := as_exc_tuple boom;
         _waiters := _waiters three_waiting ∖ list_to_set served |} ∧
    (completed (call dies_of_error elements cb self') →
       served = elements (_waiters three_waiting) ∧
       _waiters (after (call dies_of_error elements cb self')) = ∅) ∧
    ((∀ c self'', fst (dies_of_error c self'') = Return tt) →
       completed (call dies_of_error elements cb self')).
Proof.
  assert (_waiters three_waiting ≠ ∅) as Hwaiters by by_decide.
  split; [reflexivity|]. split; [exact Hwaiters|].
  split; [exact pops_each_once_elements|].
  split; [exact only_leaves_dies_of_error|].
  exact (send_then_sweep_reaches_all dies_of_error elements PyNone boom
           three_waiting eq_refl Hwaiters pops_each_once_elements
           only_leaves_dies_of_error).
Defined.

(** X13. The callback holds a copy of the waiter set taken inside [send]:
    a greenlet that was not waiting when [send] was called is never woken by
    that callback, whenever the hub runs it, in whatever order the copy is
    popped, whatever the instance has become by then (it may have been reset
    and waited on again, by that very greenlet) and whatever the woken
    greenlets do. *)
Theorem sweep_skips_late_joiners
    (after_wake : port_call → Event → outcome unit * Event)
    (pop_order : gset greenlet → list greenlet)
    (result exc : pyobj) (self later : Event) (h : greenlet) :
  _result self = NOT_USED →
  pops_each_once pop_order →
  h ∉ _waiters self →
  ∃ self' log,
    send result exc self = Finished (Return tt) self' log ∧
    ∀ cb, cb ∈ scheduled log →
      h ∉ woken (calls (call after_wake pop_order cb later)).
Proof.
  intros Harmed Hpops Hlate. eexists _, _.
  split; [by apply send_armed|].
  intros cb Hcb Hwoken. revert Hcb. case_decide as Hw; simpl.
  { by intros ?%elem_of_nil. }
  intros ->%list_elem_of_singleton. simpl in Hwoken.
  apply woken_in_pops in Hwoken.
  apply Hlate, elem_of_elements. by rewrite <- (Hpops (_waiters self)).
Qed.

Lemma sweep_skips_late_joiners_witness :
  let later := add_waiter 9 (after (reset (after (send (PyInt 1) PyNone three_waiting)))) in
  _result three_waiting = NOT_USED ∧
  pops_each_once elements ∧
  (9%positive ∉ _waiters three_waiting) ∧
  ∃ self' log,
    send (PyInt 1) PyNone three_waiting = Finished (Return tt) self' log ∧
    ∀ cb, cb ∈ scheduled log →
      9%positive ∉ woken (calls (call leaves elements cb later)).
Proof.
  intros later.
  assert (9%positive ∉ _waiters three_waiting) as Hlate by by_decide.
  split; [reflexivity|]. split; [exact pops_each_once_elements|].
  split; [exact Hlate|].
  exact (sweep_skips_late_joiners leaves elements (PyInt 1) PyNone
           three_waiting later 9%positive eq_refl pops_each_once_elements Hlate).
Defined.

(** ** Who touches the waiter set *)

(** X14. Only a suspending [wait()] changes the waiter set.  [send],
    [send_exception] and [reset] leave it as it is whether they succeed or
    raise, and so does a [wait()] on a fired instance: a [reset()] issued
    while greenlets are still registered does not drop them. *)
Theorem only_suspending_wait_changes_waiters (self : Event) :
  (∀ result exc, _waiters (after (send result exc self)) = _waiters self) ∧
  (∀ args, _waiters (after (send_exception args self)) = _waiters self) ∧
  _waiters (after (reset self)) = _waiters self ∧
  (∀ current, ready self = true → after (wait current self) = self) ∧
  (∀ current, ready self = false →
     _waiters (after (wait current self)) = {[current]} ∪ _waiters self).
Proof.
  unfold send_exception, send, reset, wait, ready.
  destruct (_result self) as [|v]; simpl.
  - repeat split; done.
  - repeat split; try done. intros current _. by destruct (_exc self).
Qed.

Lemma do_send_leaves_calls result exc pops self :
  NoDup pops →
  calls (_do_send leaves result exc pops self) =
    wake result exc <$> filter (λ g, g ∈ _waiters self) pops.
Proof.
  intros Hnodup.
  destruct (do_send_only_leaves leaves result exc only_leaves_leaves pops self
              Hnodup) as (served & _ & Hcalls & _ & Hall).
  rewrite Hcalls, Hall; [done|]. by apply do_send_completes.
Qed.

(** X15. What the waiters receive is settled by [send]: the sweep reads only
    the waiter set of the instance, never its outcome.  With waiters that
    only leave, a sweep over a copy without repetitions issues the same
    calls on any two instances that have the same waiter set; in
    particular a [reset()] slipped in between [send] and the sweep does not
    change what is delivered. *)
Theorem sweep_ignores_current_outcome
    (result : pyobj) (exc : option (list pyobj))
    (pops : list greenlet) (self other : Event) :
  NoDup pops →
  _waiters other = _waiters self →
  calls (_do_send leaves result exc pops other) =
    calls (_do_send leaves result exc pops self) ∧
  calls (_do_send leaves result exc pops (after (reset self))) =
    calls (_do_send leaves result exc pops self).
Proof.
  intros Hnodup Hsame. rewrite !do_send_leaves_calls by done.
  rewrite Hsame. split; [done|].
  unfold reset. by destruct (_result self).
Qed.

Lemma sweep_ignores_current_outcome_witness :
  NoDup [3; 2; 1]%positive ∧
  _waiters (add_waiter 1 (add_waiter 3 constructed)) = _waiters two_left ∧
  calls (_do_send leaves (PyInt 42) None [3; 2; 1]%positive
           (add_waiter 1 (add_waiter 3 constructed))) =
    calls (_do_send leaves (PyInt 42) None [3; 2; 1]%positive two_left) ∧
  calls (_do_send leaves (PyInt 42) None [3; 2; 1]%positive (after (reset two_left))) =
    calls (_do_send leaves (PyInt 42) None [3; 2; 1]%positive two_left).
Proof.
  assert (NoDup [3; 2; 1]%positive) as Hnodup by by_decide.
  assert (_waiters (add_waiter 1 (add_waiter 3 constructed)) = _waiters two_left)
    as Hsame.
  { vm_compute. reflexivity. }
  split; [exact Hnodup|]. split; [exact Hsame|].
  exact (sweep_ignores_current_outcome (PyInt 42) None [3; 2; 1]%positive
           two_left (add_waiter 1 (add_waiter 3 constructed)) Hnodup Hsame).
Defined.
